(** * PngMe: chunk types, chunks and the PNG container

    Shallow embedding of [src/chunk_type.rs] and [src/chunk.rs] of the
    PngMe crate.  Bytes are [Byte.byte]; [u32] values are [Z] in
    [0, 2^32).  Rust panics are a separate outcome, distinct from the
    [anyhow::Error] values returned through [Result]. *)

From Stdlib Require Import ZArith Lia List Bool String.
From Stdlib Require Import Strings.Byte.
Import ListNotations.
Open Scope Z_scope.

(** ** Outcomes of a Rust function: [Ok], [Err] through [?], or a panic. *)

(** The error kinds the code produces.  [Truncated] is the
    [io::ErrorKind::UnexpectedEof] returned by [read_exact];
    [ChecksumMismatch stored computed] is the [bail!] in [Chunk::try_from];
    [InvalidFormat ch s] is the [bail!("invalid byte: {} in {}", ch, s)] of
    [ChunkType::from_str]; [BadSignature] is the container's header check. *)
Inductive Error :=
| Truncated
| ChecksumMismatch (stored computed : Z)
| InvalidFormat (ch : byte) (s : list byte)
| BadSignature.

Inductive Outcome (A : Type) :=
| Ok (a : A)
| Err (e : Error)
| Panic.
Arguments Ok {A} a.
Arguments Err {A} e.
Arguments Panic {A}.

Definition bind {A B} (m : Outcome A) (k : A -> Outcome B) : Outcome B :=
  match m with
  | Ok a => k a
  | Err e => Err e
  | Panic => Panic
  end.

Notation "x <- m ;; k" := (bind m (fun x => k))
  (at level 61, m at next level, right associativity).

(** ** Byte and integer conversions *)

Definition byte_to_Z (b : byte) : Z := Z.of_N (Byte.to_N b).

(** [as u8]: the low 8 bits. *)
Definition byte_of_Z (z : Z) : byte :=
  match Byte.of_N (Z.to_N (z mod 256)) with
  | Some b => b
  | None => x00
  end.

(** [u32::from_be_bytes] *)
Definition from_be_bytes (l : list byte) : Z :=
  match l with
  | [b0; b1; b2; b3] =>
      byte_to_Z b0 * 2^24 + byte_to_Z b1 * 2^16 + byte_to_Z b2 * 2^8 + byte_to_Z b3
  | _ => 0
  end.

(** [u32::to_be_bytes] *)
Definition to_be_bytes (x : Z) : list byte :=
  [byte_of_Z (x / 2^24); byte_of_Z (x / 2^16); byte_of_Z (x / 2^8); byte_of_Z x].

(** [usize as u32] *)
Definition as_u32 (n : nat) : Z := Z.of_nat n mod 2^32.

(** ** CRC-32/ISO-HDLC ([crc::CRC_32_ISO_HDLC]: poly 0x04C11DB7 reflected,
    init 0xFFFFFFFF, refin/refout, xorout 0xFFFFFFFF), bitwise. *)

Definition crc_poly_rev : Z := 0xEDB88320.

Definition crc_step (r : Z) : Z :=
  if Z.testbit r 0 then Z.lxor (Z.shiftr r 1) crc_poly_rev else Z.shiftr r 1.

Definition crc_step8 (r : Z) : Z :=
  crc_step (crc_step (crc_step (crc_step (crc_step (crc_step (crc_step (crc_step r))))))).

Definition crc_byte (r : Z) (b : byte) : Z := crc_step8 (Z.lxor r (byte_to_Z b)).

Definition crc_update (r : Z) (bs : list byte) : Z := fold_left crc_byte bs r.

Definition crc_init : Z := 0xFFFFFFFF.

(** [Crc::<u32>::new(&CRC_32_ISO_HDLC).checksum(bs)] *)
Definition checksum (bs : list byte) : Z := Z.lxor (crc_update crc_init bs) 0xFFFFFFFF.

(** ** [src/chunk_type.rs] *)

(** [struct ChunkType { bytes: [u8; 4] }] *)
Record ChunkType := mkChunkType { ct0 : byte; ct1 : byte; ct2 : byte; ct3 : byte }.

Definition bytes (t : ChunkType) : list byte := [ct0 t; ct1 t; ct2 t; ct3 t].

(** A [[u8; 4]] read from a 4-byte buffer. *)
Definition array4 (l : list byte) : ChunkType :=
  match l with
  | [a; b; c; d] => mkChunkType a b c d
  | _ => mkChunkType x00 x00 x00 x00
  end.

(** [b & 0b00100000] *)
Definition bit5 (b : byte) : Z := Z.land (byte_to_Z b) 32.

Definition is_critical (t : ChunkType) : bool := bit5 (ct0 t) =? 0.
Definition is_public (t : ChunkType) : bool := bit5 (ct1 t) =? 0.
Definition is_reserved_bit_valid (t : ChunkType) : bool := bit5 (ct2 t) =? 0.
Definition is_safe_to_copy (t : ChunkType) : bool := negb (bit5 (ct3 t) =? 0).
Definition is_valid (t : ChunkType) : bool := is_reserved_bit_valid t.

(** [impl TryFrom<[u8; 4]> for ChunkType]: always [Ok]. *)
Definition chunk_type_try_from (t : ChunkType) : Outcome ChunkType := Ok t.

(** [u8::is_ascii_alphabetic] *)
Definition is_ascii_alphabetic (b : byte) : bool :=
  let z := byte_to_Z b in ((65 <=? z) && (z <=? 90)) || ((97 <=? z) && (z <=? 122)).

(** [chunktype.bytes[i] = ch]: index out of bounds panics. *)
Definition set_index (t : ChunkType) (i : nat) (ch : byte) : Outcome ChunkType :=
  match i with
  | 0%nat => Ok (mkChunkType ch (ct1 t) (ct2 t) (ct3 t))
  | 1%nat => Ok (mkChunkType (ct0 t) ch (ct2 t) (ct3 t))
  | 2%nat => Ok (mkChunkType (ct0 t) (ct1 t) ch (ct3 t))
  | 3%nat => Ok (mkChunkType (ct0 t) (ct1 t) (ct2 t) ch)
  | _ => Panic
  end.

(** The [for (i, ch) in s.as_bytes().iter().enumerate()] loop. *)
Fixpoint from_str_loop (s : list byte) (i : nat) (chunktype : ChunkType)
    (rest : list byte) : Outcome ChunkType :=
  match rest with
  | [] => Ok chunktype
  | ch :: rest' =>
      if negb (is_ascii_alphabetic ch) then Err (InvalidFormat ch s)
      else (chunktype' <- set_index chunktype i ch ;;
            from_str_loop s (S i) chunktype' rest')
  end.

(** [impl FromStr for ChunkType] *)
Definition from_str (str : string) : Outcome ChunkType :=
  let s := list_byte_of_string str in
  from_str_loop s 0 (mkChunkType x00 x00 x00 x00) s.

(** [impl Display for ChunkType]: [std::str::from_utf8(&self.bytes)], then
    [write!] on success and [Err(fmt::Error)] otherwise.  *)

(** [core::str::from_utf8]'s validation ([run_utf8_validation]): the
    continuation byte ranges of RFC 3629 as the standard library checks them. *)
Definition utf8_char_width (b : Z) : nat :=
  if b <? 0x80 then 1 else if b <? 0xC2 then 0 else if b <? 0xE0 then 2
  else if b <? 0xF0 then 3 else if b <? 0xF5 then 4 else 0.

Definition in_range (lo hi : Z) (b : byte) : bool :=
  (lo <=? byte_to_Z b) && (byte_to_Z b <=? hi).

Definition is_cont (b : byte) : bool := in_range 0x80 0xBF b.

Definition second3_ok (first : Z) (b : byte) : bool :=
  if first =? 0xE0 then in_range 0xA0 0xBF b
  else if first =? 0xED then in_range 0x80 0x9F b
  else is_cont b.

Definition second4_ok (first : Z) (b : byte) : bool :=
  if first =? 0xF0 then in_range 0x90 0xBF b
  else if first =? 0xF4 then in_range 0x80 0x8F b
  else is_cont b.

Fixpoint run_utf8_validation (v : list byte) : bool :=
  match v with
  | [] => true
  | first :: rest =>
      let f := byte_to_Z first in
      match utf8_char_width f, rest with
      | 1%nat, _ => run_utf8_validation rest
      | 2%nat, b1 :: rest' => is_cont b1 && run_utf8_validation rest'
      | 3%nat, b1 :: b2 :: rest' =>
          second3_ok f b1 && is_cont b2 && run_utf8_validation rest'
      | 4%nat, b1 :: b2 :: b3 :: rest' =>
          second4_ok f b1 && is_cont b2 && is_cont b3 && run_utf8_validation rest'
      | _, _ => false
      end
  end.

(** [std::str::from_utf8]: a [&str] is its bytes. *)
Definition from_utf8 (v : list byte) : option (list byte) :=
  if run_utf8_validation v then Some v else None.

(** [fmt] returns the written text, or [None] for [Err(std::fmt::Error)]. *)
Definition chunk_type_fmt (t : ChunkType) : option (list byte) :=
  match from_utf8 (bytes t) with
  | Some s => Some s
  | None => None
  end.

(** ** [src/chunk.rs] *)

Record Chunk := mkChunk {
  length : Z;          (* u32 *)
  chunktype : ChunkType;
  data : list byte;
  crc : Z              (* u32 *)
}.

(** [Chunk::new] *)
Definition new (chunk_type : ChunkType) (data : list byte) : Chunk :=
  let temp := bytes chunk_type ++ data in
  let crc := checksum temp in
  {| length := as_u32 (List.length data); chunktype := chunk_type; data := data; crc := crc |}.

(** [Chunk::as_bytes] *)
Definition as_bytes (c : Chunk) : list byte :=
  to_be_bytes (length c) ++ bytes (chunktype c) ++ data c ++ to_be_bytes (crc c).

(** [reader.read_exact(&mut buf)?] on a [BufReader] over the slice: the
    reader is the unread rest of the slice. *)
Definition read_exact (n : nat) (reader : list byte) : Outcome (list byte * list byte) :=
  if Nat.leb n (List.length reader) then Ok (firstn n reader, skipn n reader)
  else Err Truncated.

(** [&value[a..b]]: panics unless [a <= b <= value.len()]. *)
Definition slice (value : list byte) (a b : nat) : Outcome (list byte) :=
  if Nat.leb a b && Nat.leb b (List.length value) then Ok (firstn (b - a) (skipn a value))
  else Panic.

(** [impl TryFrom<&[u8]> for Chunk] *)
Definition try_from (value : list byte) : Outcome Chunk :=
  let reader := value in
  p <- read_exact 4 reader ;;
  let (len, reader) := p in
  let len := from_be_bytes len in
  p <- read_exact 4 reader ;;
  let (chunk_type, reader) := p in
  chunk_type <- chunk_type_try_from (array4 chunk_type) ;;
  data <- slice value 8 (Z.to_nat len + 8) ;;
  p <- read_exact (List.length data) reader ;;
  let (data, reader) := p in
  p <- read_exact 4 reader ;;
  let (crc, _) := p in
  let crc := from_be_bytes crc in
  region <- slice value 4 (Z.to_nat len + 8) ;;
  let valid_crc := checksum region in
  if negb (crc =? valid_crc) then Err (ChecksumMismatch crc valid_crc)
  else Ok {| length := len; chunktype := chunk_type; data := data; crc := crc |}.

Definition msg : list byte := list_byte_of_string "This is where your secret message will be!".
Definition RuSt : list byte := list_byte_of_string "RuSt".

(** [Chunk::data_as_string]: [String::from_utf8(self.data.clone())];
    [None] is the [bail!("couldn't convert chunk data to string")]. *)
Definition data_as_string (c : Chunk) : option (list byte) :=
  match from_utf8 (data c) with
  | Some s => Some s
  | None => None
  end.





(** The first byte [from_str] rejects: its loop checks a byte before
    writing it, so at most five bytes are looked at. *)
Definition first_non_alphabetic (s : list byte) : option byte :=
  find (fun b => negb (is_ascii_alphabetic b)) (firstn 5 s).

Definition is_ascii_uppercase (b : byte) : bool :=
  (65 <=? byte_to_Z b) && (byte_to_Z b <=? 90).

(** ** Single-bit corruption of an encoded buffer *)

Fixpoint update_nth (f : byte -> byte) (i : nat) (l : list byte) : list byte :=
  match l, i with
  | [], _ => []
  | x :: l', 0%nat => f x :: l'
  | x :: l', S i' => x :: update_nth f i' l'
  end.

(** Flip bit [j] (0 = least significant) of byte [i]. *)
Definition flip_bit (buf : list byte) (i j : nat) : list byte :=
  update_nth (fun b => byte_of_Z (Z.lxor (byte_to_Z b) (2 ^ Z.of_nat j))) i buf.

(** ** The container ([src/png.rs]) *)

(** Modelled from the spec: [Png::try_from] of the missing [src/png.rs]
    (section 4.3, [decode]): the first 8 bytes must equal the fixed
    signature, else [BadSignature]; then chunks are decoded with
    [Chunk::try_from] one after another until the buffer is exhausted, any
    chunk failure being fatal. *)
Definition STANDARD_HEADER : list byte := [x89; x50; x4e; x47; x0d; x0a; x1a; x0a].

Fixpoint list_byte_eqb (a b : list byte) : bool :=
  match a, b with
  | [], [] => true
  | x :: a', y :: b' => Byte.eqb x y && list_byte_eqb a' b'
  | _, _ => false
  end.

Fixpoint decode_chunks (fuel : nat) (buf : list byte) : Outcome (list Chunk) :=
  match buf with
  | [] => Ok []
  | _ =>
      match fuel with
      | 0%nat => Err Truncated
      | S fuel' =>
          c <- try_from buf ;;
          cs <- decode_chunks fuel' (skipn (12 + Z.to_nat (length c)) buf) ;;
          Ok (c :: cs)
      end
  end.

Definition png_try_from (buf : list byte) : Outcome (list Chunk) :=
  if list_byte_eqb (firstn 8 buf) STANDARD_HEADER
  then decode_chunks (List.length buf) (skipn 8 buf)
  else Err BadSignature.

(** ** Payloads longer than [u32::MAX] bytes *)

Definition big_zeros_len : nat := Z.to_nat (2^32 - 4).

(** A payload of exactly [2^32] bytes that starts with the big-endian
    checksum of the type bytes alone. *)
Definition big_payload (t : ChunkType) : list byte :=
  to_be_bytes (checksum (bytes t)) ++ repeat x00 big_zeros_len.

(** The test-suite values of [src/chunk.rs] and [src/chunk_type.rs]. *)
Definition RuSt_type : ChunkType := array4 RuSt.

(** ** Byte and big-endian lemmas *)

Lemma byte_to_Z_range (b : byte) : 0 <= byte_to_Z b < 256.
Proof.
  unfold byte_to_Z. pose proof (Byte.to_N_bounded b). lia.
Qed.

Lemma byte_to_Z_of_Z (z : Z) : byte_to_Z (byte_of_Z z) = z mod 256.
Proof.
  unfold byte_of_Z, byte_to_Z.
  pose proof (Z.mod_pos_bound z 256 ltac:(lia)).
  destruct (Byte.of_N (Z.to_N (z mod 256))) as [b|] eqn:E.
  - apply Byte.to_of_N in E. rewrite E. lia.
  - apply Byte.of_N_None_iff in E. lia.
Qed.

Lemma to_be_bytes_length (x : Z) : List.length (to_be_bytes x) = 4%nat.
Proof. reflexivity. Qed.

Lemma from_be_bytes_to_be_bytes (x : Z) :
  0 <= x < 2^32 -> from_be_bytes (to_be_bytes x) = x.
Proof.
  intros Hx. unfold from_be_bytes, to_be_bytes.
  rewrite !byte_to_Z_of_Z.
  assert (E1 : x / 2^16 = (x / 2^24) * 256 + (x / 2^16) mod 256).
  { replace (2^24) with (2^16 * 256) by reflexivity.
    rewrite <- Z.div_div by lia. pose proof (Z.div_mod (x / 2^16) 256). lia. }
  assert (E2 : x / 2^8 = (x / 2^16) * 256 + (x / 2^8) mod 256).
  { replace (2^16) with (2^8 * 256) by reflexivity.
    rewrite <- Z.div_div by lia. pose proof (Z.div_mod (x / 2^8) 256). lia. }
  assert (E3 : x = (x / 2^8) * 256 + x mod 256).
  { pose proof (Z.div_mod x 256). change (2^8) with 256. lia. }
  assert (E0 : (x / 2^24) mod 256 = x / 2^24).
  { apply Z.mod_small. split.
    - apply Z.div_pos; lia.
    - apply Z.div_lt_upper_bound; lia. }
  rewrite E0. lia.
Qed.

Lemma from_be_bytes_range (l : list byte) : 0 <= from_be_bytes l < 2^32.
Proof.
  unfold from_be_bytes.
  destruct l as [|b0 [|b1 [|b2 [|b3 [|? ?]]]]]; try lia.
  pose proof (byte_to_Z_range b0); pose proof (byte_to_Z_range b1);
  pose proof (byte_to_Z_range b2); pose proof (byte_to_Z_range b3).
  simpl; lia.
Qed.

Lemma as_u32_range (n : nat) : 0 <= as_u32 n < 2^32.
Proof. unfold as_u32. apply Z.mod_pos_bound. lia. Qed.

Lemma bytes_length (t : ChunkType) : List.length (bytes t) = 4%nat.
Proof. reflexivity. Qed.

Lemma array4_bytes (t : ChunkType) : array4 (bytes t) = t.
Proof. destruct t; reflexivity. Qed.

(** ** Reading from a concatenated buffer *)

Lemma read_exact_app (l1 l2 : list byte) :
  read_exact (List.length l1) (l1 ++ l2) = Ok (l1, l2).
Proof.
  unfold read_exact. rewrite length_app.
  replace (Nat.leb (List.length l1) (List.length l1 + List.length l2)) with true
    by (symmetry; apply Nat.leb_le; lia).
  rewrite firstn_app, skipn_app, firstn_all, skipn_all, Nat.sub_diag.
  simpl. rewrite app_nil_r. reflexivity.
Qed.

Lemma slice_prefix (pre l1 l2 : list byte) (a b : nat) :
  a = List.length pre -> b = (List.length pre + List.length l1)%nat ->
  slice (pre ++ l1 ++ l2) a b = Ok l1.
Proof.
  intros -> ->. unfold slice. rewrite !length_app.
  replace (Nat.leb (List.length pre) (List.length pre + List.length l1)) with true
    by (symmetry; apply Nat.leb_le; lia).
  replace (Nat.leb (List.length pre + List.length l1)
             (List.length pre + (List.length l1 + List.length l2))) with true
    by (symmetry; apply Nat.leb_le; lia).
  simpl. replace (List.length pre + List.length l1 - List.length pre)%nat
    with (List.length l1) by lia.
  rewrite skipn_app, skipn_all, Nat.sub_diag. simpl.
  rewrite firstn_app, firstn_all, Nat.sub_diag. simpl. rewrite app_nil_r. reflexivity.
Qed.

(** Decoding a buffer laid out as a chunk record followed by anything:
    [lb] the length field, [tb] the type, [payload] as many bytes as [lb]
    declares, [cb] the checksum field. *)
Lemma try_from_record (lb tb payload cb rest : list byte) :
  List.length lb = 4%nat -> List.length tb = 4%nat -> List.length cb = 4%nat ->
  Z.to_nat (from_be_bytes lb) = List.length payload ->
  try_from (lb ++ tb ++ payload ++ cb ++ rest) =
  if from_be_bytes cb =? checksum (tb ++ payload)
  then Ok {| length := from_be_bytes lb; chunktype := array4 tb; data := payload;
             crc := from_be_bytes cb |}
  else Err (ChecksumMismatch (from_be_bytes cb) (checksum (tb ++ payload))).
Proof.
  intros Hl Ht Hc Hp. unfold try_from.
  rewrite <- Hl at 1. rewrite read_exact_app. cbn [bind].
  rewrite <- Ht at 1. rewrite read_exact_app. cbn [bind chunk_type_try_from].
  rewrite (app_assoc lb tb).
  rewrite slice_prefix with (pre := lb ++ tb) (l1 := payload)
    by (rewrite length_app; lia).
  cbn [bind]. rewrite read_exact_app. cbn [bind].
  rewrite <- Hc at 1. rewrite read_exact_app. cbn [bind].
  rewrite <- (app_assoc lb tb), (app_assoc tb payload).
  rewrite slice_prefix with (pre := lb) (l1 := tb ++ payload)
    by (rewrite ?length_app; lia).
  cbn [bind].
  destruct (from_be_bytes cb =? checksum (tb ++ payload)); reflexivity.
Qed.

(** ** CRC register: range, linearity, and error propagation *)

Lemma lxor_bound (n a b : Z) :
  0 <= n -> 0 <= a < 2^n -> 0 <= b < 2^n -> 0 <= Z.lxor a b < 2^n.
Proof.
  intros Hn Ha Hb. split; [apply Z.lxor_nonneg; lia|].
  destruct (Z.eq_dec (Z.lxor a b) 0) as [E|E]; [rewrite E; lia|].
  apply Z.log2_lt_pow2; [pose proof (Z.lxor_nonneg a b); lia|].
  pose proof (Z.log2_lxor a b ltac:(lia) ltac:(lia)).
  assert (0 < n).
  { destruct (Z.le_gt_cases n 0) as [Hle|]; [|lia].
    assert (n = 0) by lia; subst n. change (2^0) with 1 in *.
    assert (a = 0) by lia; assert (b = 0) by lia; subst. simpl in E. lia. }
  assert (Z.log2 a < n).
  { destruct (Z.eq_dec a 0) as [->|]; [simpl; lia|]. apply Z.log2_lt_pow2; lia. }
  assert (Z.log2 b < n).
  { destruct (Z.eq_dec b 0) as [->|]; [simpl; lia|]. apply Z.log2_lt_pow2; lia. }
  lia.
Qed.

Definition in32 (r : Z) : Prop := 0 <= r < 2^32.

Lemma crc_step_in32 (r : Z) : in32 r -> in32 (crc_step r).
Proof.
  unfold in32, crc_step. intros Hr.
  rewrite Z.shiftr_div_pow2 by lia. change (2^1) with 2.
  assert (0 <= r / 2 < 2^32) by (split; [apply Z.div_pos | apply Z.div_lt_upper_bound]; lia).
  destruct (Z.testbit r 0); [apply lxor_bound; unfold crc_poly_rev; lia | lia].
Qed.

Lemma crc_step8_in32 (r : Z) : in32 r -> in32 (crc_step8 r).
Proof. intros H. unfold crc_step8. repeat apply crc_step_in32. exact H. Qed.

Lemma crc_byte_in32 (r : Z) (b : byte) : in32 r -> in32 (crc_byte r b).
Proof.
  intros H. apply crc_step8_in32. pose proof (byte_to_Z_range b).
  unfold in32 in *. apply lxor_bound; lia.
Qed.

Lemma crc_update_in32 (bs : list byte) (r : Z) : in32 r -> in32 (crc_update r bs).
Proof.
  unfold crc_update. revert r.
  induction bs as [|b bs IH]; intros r H; simpl; [exact H|].
  apply IH, crc_byte_in32, H.
Qed.

Lemma checksum_range (bs : list byte) : 0 <= checksum bs < 2^32.
Proof.
  unfold checksum. apply lxor_bound; [lia| |lia].
  apply crc_update_in32. unfold in32, crc_init. lia.
Qed.

Lemma crc_step_lxor (a b : Z) :
  crc_step (Z.lxor a b) = Z.lxor (crc_step a) (crc_step b).
Proof.
  unfold crc_step. rewrite Z.lxor_spec, Z.shiftr_lxor.
  destruct (Z.testbit a 0), (Z.testbit b 0); simpl;
    apply Z.bits_inj'; intros n Hn; rewrite ?Z.lxor_spec;
    destruct (Z.testbit (Z.shiftr a 1) n), (Z.testbit (Z.shiftr b 1) n),
      (Z.testbit crc_poly_rev n); reflexivity.
Qed.

Lemma crc_step8_lxor (a b : Z) :
  crc_step8 (Z.lxor a b) = Z.lxor (crc_step8 a) (crc_step8 b).
Proof. unfold crc_step8. rewrite !crc_step_lxor. reflexivity. Qed.

Lemma crc_byte_lxor (x y : Z) (b : byte) :
  crc_byte (Z.lxor x y) b = Z.lxor (crc_byte x b) (crc_byte y x00).
Proof.
  unfold crc_byte. change (byte_to_Z x00) with 0. rewrite Z.lxor_0_r.
  rewrite <- crc_step8_lxor. f_equal.
  rewrite !Z.lxor_assoc, (Z.lxor_comm y). reflexivity.
Qed.

(** The register is affine in its starting value: the difference of two
    starting values propagates through zero bytes. *)
Lemma crc_update_lxor (bs : list byte) (x y : Z) :
  crc_update (Z.lxor x y) bs =
  Z.lxor (crc_update x bs) (crc_update y (repeat x00 (List.length bs))).
Proof.
  unfold crc_update. revert x y.
  induction bs as [|b bs IH]; intros x y; simpl; [reflexivity|].
  rewrite crc_byte_lxor. apply IH.
Qed.

Lemma crc_step_nonzero (r : Z) : 0 < r < 2^32 -> crc_step r <> 0.
Proof.
  intros Hr. unfold crc_step.
  rewrite Z.shiftr_div_pow2 by lia. change (2^1) with 2.
  assert (0 <= r / 2 < 2^31) by (split; [apply Z.div_pos | apply Z.div_lt_upper_bound]; lia).
  rewrite Z.bit0_odd. destruct (Z.odd r) eqn:Eo.
  - intros E. apply Z.lxor_eq in E. unfold crc_poly_rev in E. lia.
  - intros E. rewrite Zodd_even_bool, negb_false_iff, Z.even_spec in Eo.
    destruct Eo as [k ->]. rewrite Z.mul_comm, Z.div_mul in E by lia. lia.
Qed.

Lemma crc_step8_nonzero (r : Z) : 0 < r < 2^32 -> crc_step8 r <> 0.
Proof.
  intros H. unfold crc_step8.
  assert (Hs : forall x, 0 < x < 2^32 -> 0 < crc_step x < 2^32).
  { intros x Hx. pose proof (crc_step_in32 x ltac:(unfold in32; lia)).
    pose proof (crc_step_nonzero x Hx). unfold in32 in *. lia. }
  apply crc_step_nonzero. repeat apply Hs. exact H.
Qed.

Lemma crc_update_zeros_nonzero (n : nat) (r : Z) :
  0 < r < 2^32 -> crc_update r (repeat x00 n) <> 0.
Proof.
  unfold crc_update. revert r.
  induction n as [|n IH]; intros r Hr; simpl; [lia|].
  apply IH. unfold crc_byte. change (byte_to_Z x00) with 0. rewrite Z.lxor_0_r.
  pose proof (crc_step8_in32 r ltac:(unfold in32; lia)).
  pose proof (crc_step8_nonzero r Hr). unfold in32 in *. lia.
Qed.

Lemma update_nth_app (f : byte -> byte) (l1 l2 : list byte) (k : nat) :
  update_nth f (List.length l1 + k) (l1 ++ l2) = l1 ++ update_nth f k l2.
Proof. induction l1 as [|x l1 IH]; simpl; [reflexivity|]. rewrite IH. reflexivity. Qed.

Lemma update_nth_length (f : byte -> byte) (k : nat) (l : list byte) :
  List.length (update_nth f k l) = List.length l.
Proof.
  revert k. induction l as [|x l IH]; intros [|k]; simpl; auto.
Qed.

Lemma update_nth_split (f : byte -> byte) (k : nat) (l : list byte) :
  (k < List.length l)%nat ->
  exists pre b post, l = pre ++ b :: post /\ update_nth f k l = pre ++ f b :: post.
Proof.
  revert k. induction l as [|x l IH]; intros k Hk; simpl in Hk; [lia|].
  destruct k as [|k].
  - exists [], x, l. split; reflexivity.
  - destruct (IH k ltac:(lia)) as (pre & b & post & E1 & E2).
    exists (x :: pre), b, post. simpl. rewrite E2, E1. split; reflexivity.
Qed.

Lemma flip_byte_to_Z (b : byte) (j : nat) : (j < 8)%nat ->
  byte_to_Z (byte_of_Z (Z.lxor (byte_to_Z b) (2 ^ Z.of_nat j))) =
  Z.lxor (byte_to_Z b) (2 ^ Z.of_nat j).
Proof.
  intros Hj. rewrite byte_to_Z_of_Z. apply Z.mod_small.
  change 256 with (2^8). apply lxor_bound; [lia| apply byte_to_Z_range |].
  split; [lia|]. apply Z.pow_lt_mono_r; lia.
Qed.

Lemma crc_step8_single_bit (j : nat) : (j < 8)%nat ->
  0 < crc_step8 (2 ^ Z.of_nat j) < 2^32.
Proof.
  intros Hj. do 8 (destruct j as [|j]; [vm_compute; split; reflexivity|]). lia.
Qed.

Lemma lxor_shift_eq (a d f : Z) : Z.lxor (Z.lxor a d) f = Z.lxor a f -> d = 0.
Proof.
  intros E. apply Z.bits_inj'; intros n _.
  apply (f_equal (fun v => Z.testbit v n)) in E. rewrite !Z.lxor_spec in E.
  rewrite Z.bits_0.
  destruct (Z.testbit a n), (Z.testbit d n), (Z.testbit f n); simpl in *; congruence.
Qed.

(** Flipping one bit of a message changes its CRC-32. *)
Lemma checksum_flip (m : list byte) (k j : nat) :
  (k < List.length m)%nat -> (j < 8)%nat ->
  checksum (update_nth (fun b => byte_of_Z (Z.lxor (byte_to_Z b) (2 ^ Z.of_nat j))) k m)
  <> checksum m.
Proof.
  intros Hk Hj.
  destruct (update_nth_split (fun b => byte_of_Z (Z.lxor (byte_to_Z b) (2 ^ Z.of_nat j))) k m Hk)
    as (pre & b & post & E1 & E2).
  rewrite E2, E1. unfold checksum, crc_update. rewrite !fold_left_app. cbn [fold_left].
  set (R := fold_left crc_byte pre crc_init).
  assert (Hb : crc_byte R (byte_of_Z (Z.lxor (byte_to_Z b) (2 ^ Z.of_nat j))) =
               Z.lxor (crc_byte R b) (crc_step8 (2 ^ Z.of_nat j))).
  { unfold crc_byte. rewrite flip_byte_to_Z by exact Hj.
    rewrite <- crc_step8_lxor, Z.lxor_assoc. reflexivity. }
  rewrite Hb.
  fold (crc_update (Z.lxor (crc_byte R b) (crc_step8 (2 ^ Z.of_nat j))) post).
  fold (crc_update (crc_byte R b) post). rewrite crc_update_lxor.
  pose proof (crc_update_zeros_nonzero (List.length post) _ (crc_step8_single_bit j Hj)) as Hnz.
  intros E. apply lxor_shift_eq in E. contradiction.
Qed.

Lemma read_exact_ok (n : nat) (l : list byte) :
  (n <= List.length l)%nat -> read_exact n l = Ok (firstn n l, skipn n l).
Proof.
  intros H. unfold read_exact. apply Nat.leb_le in H. rewrite H. reflexivity.
Qed.

Lemma update_nth_app_l (f : byte -> byte) (l1 l2 : list byte) (k : nat) :
  (k < List.length l1)%nat -> update_nth f k (l1 ++ l2) = update_nth f k l1 ++ l2.
Proof.
  revert k. induction l1 as [|x l1 IH]; intros [|k] Hk; simpl in *; try lia; auto.
  rewrite IH by lia. reflexivity.
Qed.

Lemma as_bytes_new (t : ChunkType) (d : list byte) :
  as_bytes (new t d) =
  to_be_bytes (as_u32 (List.length d)) ++ bytes t ++ d ++ to_be_bytes (checksum (bytes t ++ d)).
Proof. reflexivity. Qed.

Lemma as_u32_small (n : nat) : Z.of_nat n < 2^32 -> as_u32 n = Z.of_nat n.
Proof. intros H. unfold as_u32. apply Z.mod_small. lia. Qed.

Lemma list_byte_eqb_eq (a b : list byte) : list_byte_eqb a b = true -> a = b.
Proof.
  revert b. induction a as [|x a IH]; intros [|y b]; simpl; try discriminate; auto.
  intros H. apply andb_prop in H as [H1 H2].
  apply Byte.byte_dec_bl in H1. rewrite H1, (IH b H2). reflexivity.
Qed.

Lemma bit5_spec (b : byte) : (bit5 b =? 0) = negb (Z.testbit (byte_to_Z b) 5).
Proof. destruct b; reflexivity. Qed.

Lemma utf8_ascii (v : list byte) :
  forallb (fun b => byte_to_Z b <? 128) v = true -> run_utf8_validation v = true.
Proof.
  induction v as [|b v IH]; simpl; [reflexivity|].
  intros H. apply andb_prop in H as [H1 H2].
  assert (W : utf8_char_width (byte_to_Z b) = 1%nat)
    by (unfold utf8_char_width; rewrite H1; reflexivity).
  rewrite W. apply IH, H2.
Qed.

Lemma big_zeros_len_Z : Z.of_nat big_zeros_len = 2^32 - 4.
Proof. unfold big_zeros_len. rewrite Z2Nat.id; lia. Qed.

Lemma big_payload_length (t : ChunkType) :
  List.length (big_payload t) = (4 + big_zeros_len)%nat.
Proof. unfold big_payload. rewrite length_app, repeat_length. reflexivity. Qed.

Lemma big_payload_as_u32 (t : ChunkType) : as_u32 (List.length (big_payload t)) = 0.
Proof.
  rewrite big_payload_length. unfold as_u32.
  rewrite Nat2Z.inj_add, big_zeros_len_Z. reflexivity.
Qed.

(** Decoding the encoding of [new t (big_payload t)]: its length field has
    wrapped to 0, so the decoder sees an empty payload followed by the
    checksum of the type alone, and ignores everything after it.  The same
    holds after any change to bytes beyond index 12. *)
Lemma try_from_big_payload (t : ChunkType) (rest : list byte) :
  try_from (to_be_bytes (as_u32 (List.length (big_payload t))) ++ bytes t ++
            to_be_bytes (checksum (bytes t)) ++ rest) =
  Ok {| length := 0; chunktype := t; data := []; crc := checksum (bytes t) |}.
Proof.
  rewrite big_payload_as_u32.
  change (to_be_bytes 0 ++ bytes t ++ to_be_bytes (checksum (bytes t)) ++ rest)
    with (to_be_bytes 0 ++ bytes t ++ [] ++ to_be_bytes (checksum (bytes t)) ++ rest).
  rewrite try_from_record by reflexivity.
  rewrite app_nil_r, from_be_bytes_to_be_bytes by apply checksum_range.
  rewrite Z.eqb_refl, array4_bytes. reflexivity.
Qed.

(** ** Claims *)

(** C1 (code bug): a buffer of at least 8 bytes whose length field declares
    more payload than the buffer holds makes [Chunk::try_from] panic in the
    slice [&value[8..len as usize + 8]] instead of returning an error. *)
Theorem try_from_short_payload_panics (value : list byte) :
  (8 <= List.length value)%nat ->
  (List.length value < Z.to_nat (from_be_bytes (firstn 4 value)) + 8)%nat ->
  try_from value = Panic.
Proof.
  intros H8 Hs. unfold try_from.
  rewrite read_exact_ok by lia. cbn [bind].
  rewrite read_exact_ok by (rewrite length_skipn; lia). cbn [bind chunk_type_try_from].
  unfold slice.
  replace (Nat.leb (Z.to_nat (from_be_bytes (firstn 4 value)) + 8) (List.length value))
    with false by (symmetry; apply Nat.leb_gt; lia).
  rewrite andb_false_r. reflexivity.
Qed.

Lemma try_from_short_payload_panics_witness :
  (8 <= List.length [x00; x00; x00; x01; "R"%byte; "u"%byte; "S"%byte; "t"%byte])%nat /\
  try_from [x00; x00; x00; x01; "R"%byte; "u"%byte; "S"%byte; "t"%byte] = Panic.
Proof.
  split; [simpl; lia|].
  apply try_from_short_payload_panics; vm_compute; lia.
Defined.

(** C2 (corrected), counterexample: a payload of [2^32] bytes does not
    survive [as_bytes] then [try_from]: the length field wraps to 0. *)
Lemma roundtrip_fails_big_payload :
  try_from (as_bytes (new RuSt_type (big_payload RuSt_type))) <>
  Ok (new RuSt_type (big_payload RuSt_type)).
Proof.
  rewrite as_bytes_new. unfold big_payload at 2.
  rewrite <- (app_assoc (to_be_bytes (checksum (bytes RuSt_type)))).
  rewrite try_from_big_payload.
  intros E.
  assert (E2 : data (new RuSt_type (big_payload RuSt_type)) = []).
  { set (c := new RuSt_type (big_payload RuSt_type)) in *. clearbody c.
    injection E as E. rewrite <- E. reflexivity. }
  change (data (new RuSt_type (big_payload RuSt_type))) with (big_payload RuSt_type) in E2.
  unfold big_payload, to_be_bytes in E2. discriminate E2.
Qed.

(** C2 (corrected): for every chunk type [t] and every payload [d] of fewer
    than [2^32] bytes, decoding the encoding of [new t d] gives back
    [new t d], field by field. *)
Theorem roundtrip (t : ChunkType) (d : list byte) :
  Z.of_nat (List.length d) < 2^32 ->
  try_from (as_bytes (new t d)) = Ok (new t d).
Proof.
  intros Hd. rewrite as_bytes_new, <- (app_nil_r (to_be_bytes (checksum _))).
  rewrite try_from_record by
    (rewrite ?to_be_bytes_length, ?from_be_bytes_to_be_bytes by apply as_u32_range;
     try reflexivity; rewrite as_u32_small by exact Hd; apply Nat2Z.id).
  rewrite from_be_bytes_to_be_bytes by apply checksum_range.
  rewrite Z.eqb_refl, from_be_bytes_to_be_bytes by apply as_u32_range.
  rewrite array4_bytes. reflexivity.
Qed.

Lemma roundtrip_witness :
  Z.of_nat (List.length msg) < 2^32 /\
  try_from (as_bytes (new RuSt_type msg)) = Ok (new RuSt_type msg).
Proof.
  split; [vm_compute; reflexivity|].
  apply roundtrip. vm_compute. reflexivity.
Defined.

(** C3: on a buffer holding at least [12 + len] bytes, where [len] is its
    big-endian length field, [try_from] returns
    [ChecksumMismatch stored computed] exactly when the stored checksum
    differs from the CRC-32 of the type bytes and the payload; otherwise it
    returns the parsed length, type, payload and the stored checksum. *)
Theorem try_from_checksum (value : list byte) :
  (12 + Z.to_nat (from_be_bytes (firstn 4 value)) <= List.length value)%nat ->
  try_from value =
  (let len := from_be_bytes (firstn 4 value) in
   let type_bytes := firstn 4 (skipn 4 value) in
   let payload := firstn (Z.to_nat len) (skipn 8 value) in
   let stored := from_be_bytes (firstn 4 (skipn (8 + Z.to_nat len) value)) in
   let computed := checksum (type_bytes ++ payload) in
   if stored =? computed
   then Ok {| length := len; chunktype := array4 type_bytes; data := payload; crc := stored |}
   else Err (ChecksumMismatch stored computed)).
Proof.
  intros H. cbv zeta.
  set (L := Z.to_nat (from_be_bytes (firstn 4 value))) in *.
  assert (Hv : value = firstn 4 value ++ firstn 4 (skipn 4 value) ++
                       firstn L (skipn 8 value) ++ firstn 4 (skipn (8 + L) value) ++
                       skipn 4 (skipn (8 + L) value)).
  { rewrite firstn_skipn.
    replace (skipn (8 + L) value) with (skipn L (skipn 8 value))
      by (rewrite skipn_skipn; f_equal; lia).
    rewrite firstn_skipn.
    replace (skipn 8 value) with (skipn 4 (skipn 4 value))
      by (rewrite skipn_skipn; reflexivity).
    rewrite !firstn_skipn. reflexivity. }
  rewrite Hv at 1.
  rewrite try_from_record; try reflexivity.
  - rewrite length_firstn. lia.
  - rewrite length_firstn, length_skipn. lia.
  - rewrite length_firstn, length_skipn. lia.
  - fold L. rewrite length_firstn, length_skipn. lia.
Qed.

Lemma try_from_checksum_witness :
  (12 + Z.to_nat (from_be_bytes (firstn 4 (as_bytes (new RuSt_type msg))))
     <= List.length (as_bytes (new RuSt_type msg)))%nat /\
  try_from (as_bytes (new RuSt_type msg)) = Ok (new RuSt_type msg).
Proof.
  split; [vm_compute; lia|].
  rewrite (try_from_checksum (as_bytes (new RuSt_type msg))) by (vm_compute; lia).
  vm_compute. reflexivity.
Defined.

(** C4 (code bug): [ChunkType::from_str] never checks the length of its
    input.  Shorter alphabetic strings succeed with zero bytes left in the
    tag, and a fifth alphabetic byte panics on the write [bytes[4]]; only a
    non-alphabetic byte met within the first four gives [InvalidFormat],
    reporting the byte and the whole string, not a position. *)
Theorem from_str_length_unchecked :
  from_str "" = Ok (mkChunkType x00 x00 x00 x00) /\
  from_str "RuS" = Ok (mkChunkType "R"%byte "u"%byte "S"%byte x00) /\
  from_str "RuStX" = Panic /\
  from_str "Ru1t" = Err (InvalidFormat "1"%byte (list_byte_of_string "Ru1t")) /\
  from_str "RuSt" = Ok RuSt_type.
Proof. vm_compute. repeat split. Qed.

(** C5 (corrected), counterexample: the [2^32]-byte payload gets a
    length field of 0, not its byte count. *)
Lemma new_length_wraps :
  length (new RuSt_type (big_payload RuSt_type)) <>
  Z.of_nat (List.length (big_payload RuSt_type)).
Proof.
  change (length (new RuSt_type (big_payload RuSt_type)))
    with (as_u32 (List.length (big_payload RuSt_type))).
  rewrite big_payload_as_u32, big_payload_length, Nat2Z.inj_add, big_zeros_len_Z.
  discriminate.
Qed.

(** C5 (corrected): [Chunk::new t d] is total; its length is the byte count
    of [d] modulo [2^32] ([data.len() as u32]), its type [t], its payload
    [d], and its checksum the CRC-32 of the type bytes followed by [d]. *)
Theorem new_fields (t : ChunkType) (d : list byte) :
  length (new t d) = Z.of_nat (List.length d) mod 2^32 /\
  chunktype (new t d) = t /\ data (new t d) = d /\
  crc (new t d) = checksum (bytes t ++ d).
Proof. repeat split. Qed.

(** C6: the property queries read bit 5 of the byte at their position;
    [is_valid] is [is_reserved_bit_valid]. *)
Theorem chunk_type_properties (t : ChunkType) :
  is_critical t = negb (Z.testbit (byte_to_Z (ct0 t)) 5) /\
  is_public t = negb (Z.testbit (byte_to_Z (ct1 t)) 5) /\
  is_reserved_bit_valid t = negb (Z.testbit (byte_to_Z (ct2 t)) 5) /\
  is_safe_to_copy t = Z.testbit (byte_to_Z (ct3 t)) 5 /\
  is_valid t = is_reserved_bit_valid t.
Proof.
  unfold is_critical, is_public, is_valid, is_reserved_bit_valid, is_safe_to_copy.
  rewrite !bit5_spec, negb_involutive. repeat split.
Qed.

(** C8 (corrected), counterexample: the test message has 42 bytes, so
    the encoding is not 56 bytes long. *)
Lemma test_vector_not_56 : List.length (as_bytes (new RuSt_type msg)) <> 56%nat.
Proof. vm_compute. discriminate. Qed.

(** C8 (corrected): the chunk of type ["RuSt"] with the test message
    (42 bytes) encodes to 54 bytes; its length field is [0x0000002A] and its
    checksum, stored in the last four bytes, is 2882656334. *)
Theorem test_vector :
  from_str "RuSt" = Ok RuSt_type /\
  List.length msg = 42%nat /\
  List.length (as_bytes (new RuSt_type msg)) = 54%nat /\
  firstn 4 (as_bytes (new RuSt_type msg)) = [x00; x00; x00; x2a] /\
  from_be_bytes (firstn 4 (as_bytes (new RuSt_type msg))) = 42 /\
  crc (new RuSt_type msg) = 2882656334 /\
  from_be_bytes (skipn 50 (as_bytes (new RuSt_type msg))) = 2882656334.
Proof. vm_compute. repeat split. Qed.

(** C7 (corrected), counterexample: in the encoding of
    [new RuSt_type (big_payload RuSt_type)] the decoder reads an empty
    payload and a matching checksum from the first payload bytes; flipping
    bit 0 of byte 12, inside the payload region, still decodes successfully. *)
Lemma flip_undetected_big_payload :
  (4 <= 12 < 8 + List.length (big_payload RuSt_type))%nat /\
  (forall stored computed,
     try_from (flip_bit (as_bytes (new RuSt_type (big_payload RuSt_type))) 12 0) <>
     Err (ChecksumMismatch stored computed)).
Proof.
  split; [rewrite big_payload_length; pose proof big_zeros_len_Z; lia|].
  intros stored computed.
  rewrite as_bytes_new. unfold big_payload at 2.
  rewrite <- (app_assoc (to_be_bytes (checksum (bytes RuSt_type)))).
  unfold flip_bit.
  set (F := fun b => byte_of_Z (Z.lxor (byte_to_Z b) (2 ^ Z.of_nat 0))).
  set (lb := to_be_bytes (as_u32 (List.length (big_payload RuSt_type)))).
  set (cb0 := to_be_bytes (checksum (bytes RuSt_type))).
  set (rest := repeat x00 big_zeros_len ++ _).
  replace (update_nth F 12 (lb ++ bytes RuSt_type ++ cb0 ++ rest))
    with (lb ++ bytes RuSt_type ++ cb0 ++ update_nth F 0 rest).
  - unfold lb, cb0. rewrite try_from_big_payload. discriminate.
  - pose proof (update_nth_app F (lb ++ bytes RuSt_type ++ cb0) rest 0) as U.
    rewrite <- !app_assoc in U. exact (eq_sym U).
Qed.

(** C7 (corrected): for every chunk [new t d] whose payload has fewer than
    [2^32] bytes, flipping any one bit of any byte in the type or payload
    region of its encoding makes [try_from] fail with a checksum mismatch
    whose stored and computed values differ. *)
Theorem flip_detected (t : ChunkType) (d : list byte) (i j : nat) :
  Z.of_nat (List.length d) < 2^32 ->
  (4 <= i < 8 + List.length d)%nat -> (j < 8)%nat ->
  exists stored computed,
    try_from (flip_bit (as_bytes (new t d)) i j) = Err (ChecksumMismatch stored computed) /\
    stored <> computed.
Proof.
  intros Hd Hi Hj.
  rewrite as_bytes_new, as_u32_small by exact Hd.
  set (f := fun b => byte_of_Z (Z.lxor (byte_to_Z b) (2 ^ Z.of_nat j))).
  set (lb := to_be_bytes (Z.of_nat (List.length d))).
  set (cb := to_be_bytes (checksum (bytes t ++ d))).
  set (M' := update_nth f (i - 4) (bytes t ++ d)).
  assert (HM : (List.length M' = 4 + List.length d)%nat)
    by (unfold M'; rewrite update_nth_length, length_app; reflexivity).
  assert (Hbuf : flip_bit (lb ++ bytes t ++ d ++ cb) i j =
                 lb ++ firstn 4 M' ++ skipn 4 M' ++ cb ++ []).
  { unfold flip_bit. fold f.
    replace i with (List.length lb + (i - 4))%nat by (unfold lb; rewrite to_be_bytes_length; lia).
    rewrite update_nth_app, app_assoc, update_nth_app_l
      by (rewrite length_app, bytes_length; lia).
    fold M'. rewrite app_nil_r, (app_assoc (firstn 4 M')), firstn_skipn. reflexivity. }
  rewrite Hbuf.
  rewrite try_from_record.
  - rewrite firstn_skipn. unfold cb.
    rewrite from_be_bytes_to_be_bytes by apply checksum_range.
    assert (Hne : checksum M' <> checksum (bytes t ++ d)).
    { apply checksum_flip; [rewrite length_app, bytes_length; lia | exact Hj]. }
    destruct (Z.eqb_spec (checksum (bytes t ++ d)) (checksum M')) as [E|_].
    + congruence.
    + exists (checksum (bytes t ++ d)), (checksum M'). split; [reflexivity | congruence].
  - reflexivity.
  - rewrite length_firstn. lia.
  - reflexivity.
  - unfold lb. rewrite from_be_bytes_to_be_bytes by lia.
    rewrite Nat2Z.id, length_skipn. lia.
Qed.

Lemma flip_detected_witness :
  Z.of_nat (List.length msg) < 2^32 /\ (4 <= 10 < 8 + List.length msg)%nat /\ (3 < 8)%nat /\
  exists stored computed,
    try_from (flip_bit (as_bytes (new RuSt_type msg)) 10 3) =
    Err (ChecksumMismatch stored computed) /\ stored <> computed.
Proof.
  split; [vm_compute; reflexivity|]. split; [vm_compute; lia|]. split; [lia|].
  apply flip_detected; [vm_compute; reflexivity | vm_compute; lia | lia].
Defined.

(** C9 (modelled from the spec): a buffer whose first 8 bytes are not the
    PNG signature is rejected with [BadSignature], whatever follows. *)
Theorem png_bad_signature (buf : list byte) :
  firstn 8 buf <> STANDARD_HEADER -> png_try_from buf = Err BadSignature.
Proof.
  intros H. unfold png_try_from.
  destruct (list_byte_eqb (firstn 8 buf) STANDARD_HEADER) eqn:E; [|reflexivity].
  apply list_byte_eqb_eq in E. contradiction.
Qed.

Lemma png_bad_signature_witness :
  firstn 8 (as_bytes (new RuSt_type msg)) <> STANDARD_HEADER /\
  png_try_from (as_bytes (new RuSt_type msg)) = Err BadSignature.
Proof.
  split; [vm_compute; discriminate|].
  apply png_bad_signature. vm_compute. discriminate.
Defined.

(** C10: [ChunkType::try_from] accepts any four bytes, and the [Display]
    rendering of a tag succeeds, writing its four bytes, exactly when they
    are valid UTF-8 (in particular whenever all four are ASCII, digits and
    punctuation included); it fails exactly when they are not. *)
Theorem chunk_type_display (b0 b1 b2 b3 : byte) :
  chunk_type_try_from (mkChunkType b0 b1 b2 b3) = Ok (mkChunkType b0 b1 b2 b3) /\
  (chunk_type_fmt (mkChunkType b0 b1 b2 b3) = Some [b0; b1; b2; b3] <->
   run_utf8_validation [b0; b1; b2; b3] = true) /\
  (chunk_type_fmt (mkChunkType b0 b1 b2 b3) = None <->
   run_utf8_validation [b0; b1; b2; b3] = false) /\
  (forallb (fun b => byte_to_Z b <? 128) [b0; b1; b2; b3] = true ->
   chunk_type_fmt (mkChunkType b0 b1 b2 b3) = Some [b0; b1; b2; b3]).
Proof.
  unfold chunk_type_fmt, from_utf8, bytes. cbn [ct0 ct1 ct2 ct3].
  split; [reflexivity|].
  destruct (run_utf8_validation [b0; b1; b2; b3]) eqn:E.
  - repeat split; intros; try reflexivity; discriminate.
  - split; [split; discriminate|]. split; [split; reflexivity|].
    intros H. apply utf8_ascii in H. congruence.
Qed.

Example chunk_type_display_digits :
  chunk_type_fmt (array4 (list_byte_of_string "Ru1t")) = Some (list_byte_of_string "Ru1t") /\
  chunk_type_fmt (array4 (list_byte_of_string "#!0?")) = Some (list_byte_of_string "#!0?") /\
  chunk_type_fmt (mkChunkType x80 x00 x00 x00) = None /\
  chunk_type_fmt (mkChunkType xc3 xa9 "a"%byte "b"%byte) = Some [xc3; xa9; "a"%byte; "b"%byte].
Proof. vm_compute. repeat split. Qed.

Example chunk_type_tests :
  is_valid RuSt_type = true /\ is_critical RuSt_type = true /\
  is_public RuSt_type = false /\ is_safe_to_copy RuSt_type = true /\
  (match from_str "Rust" with Ok t => is_valid t = false | _ => False end) /\
  (match from_str "ruSt" with Ok t => is_critical t = false | _ => False end) /\
  (match from_str "RuST" with Ok t => is_safe_to_copy t = false | _ => False end).
Proof. vm_compute. repeat split. Qed.

(** ** Further properties of the code *)

Lemma read_exact_short (n : nat) (l : list byte) :
  (List.length l < n)%nat -> read_exact n l = Err Truncated.
Proof.
  intros H. unfold read_exact. apply Nat.leb_gt in H. rewrite H. reflexivity.
Qed.

(** The full behaviour of [Chunk::try_from] on a buffer of [n] bytes whose
    length field reads [L]. *)
Lemma try_from_cases (value : list byte) :
  try_from value =
  (let n := List.length value in
   let L := Z.to_nat (from_be_bytes (firstn 4 value)) in
   if Nat.ltb n 8 then Err Truncated
   else if Nat.ltb n (L + 8) then Panic
   else if Nat.ltb n (L + 12) then Err Truncated
   else
     let type_bytes := firstn 4 (skipn 4 value) in
     let payload := firstn L (skipn 8 value) in
     let stored := from_be_bytes (firstn 4 (skipn (8 + L) value)) in
     let computed := checksum (type_bytes ++ payload) in
     if stored =? computed
     then Ok {| length := from_be_bytes (firstn 4 value); chunktype := array4 type_bytes;
                data := payload; crc := stored |}
     else Err (ChecksumMismatch stored computed)).
Proof.
  cbv zeta.
  set (L := Z.to_nat (from_be_bytes (firstn 4 value))).
  destruct (Nat.ltb_spec (List.length value) 8) as [H8|H8].
  { unfold try_from.
    destruct (Nat.lt_ge_cases (List.length value) 4).
    - rewrite read_exact_short by lia. reflexivity.
    - rewrite read_exact_ok by lia. cbn [bind].
      rewrite read_exact_short by (rewrite length_skipn; lia). reflexivity. }
  destruct (Nat.ltb_spec (List.length value) (L + 8)) as [HL|HL].
  { unfold try_from.
    rewrite read_exact_ok by lia. cbn [bind].
    rewrite read_exact_ok by (rewrite length_skipn; lia). cbn [bind chunk_type_try_from].
    unfold slice. fold L.
    replace (Nat.leb (L + 8) (List.length value)) with false
      by (symmetry; apply Nat.leb_gt; lia).
    rewrite andb_false_r. reflexivity. }
  destruct (Nat.ltb_spec (List.length value) (L + 12)) as [HC|HC].
  { unfold try_from.
    rewrite read_exact_ok by lia. cbn [bind].
    rewrite read_exact_ok by (rewrite length_skipn; lia). cbn [bind chunk_type_try_from].
    unfold slice. fold L.
    replace (Nat.leb 8 (L + 8)) with true by (symmetry; apply Nat.leb_le; lia).
    replace (Nat.leb (L + 8) (List.length value)) with true
      by (symmetry; apply Nat.leb_le; lia).
    cbn [andb bind]. replace (L + 8 - 8)%nat with L by lia.
    rewrite read_exact_ok by (rewrite length_firstn, !length_skipn; lia). cbn [bind].
    rewrite read_exact_short by (rewrite length_firstn, !length_skipn; lia). reflexivity. }
  assert (Hv : value = firstn 4 value ++ firstn 4 (skipn 4 value) ++
                       firstn L (skipn 8 value) ++ firstn 4 (skipn (8 + L) value) ++
                       skipn 4 (skipn (8 + L) value)).
  { rewrite firstn_skipn.
    replace (skipn (8 + L) value) with (skipn L (skipn 8 value))
      by (rewrite skipn_skipn; f_equal; lia).
    rewrite firstn_skipn.
    replace (skipn 8 value) with (skipn 4 (skipn 4 value))
      by (rewrite skipn_skipn; reflexivity).
    rewrite !firstn_skipn. reflexivity. }
  rewrite Hv at 1.
  rewrite try_from_record; try reflexivity.
  - rewrite length_firstn. lia.
  - rewrite length_firstn, length_skipn. lia.
  - rewrite length_firstn, length_skipn. lia.
  - fold L. rewrite length_firstn, length_skipn. lia.
Qed.

Lemma bytes_array4 (l : list byte) : List.length l = 4%nat -> bytes (array4 l) = l.
Proof.
  intros H. destruct l as [|a [|b [|c [|d [|? ?]]]]]; try discriminate. reflexivity.
Qed.

Lemma byte_of_Z_to_Z (z : Z) (b : byte) : z mod 256 = byte_to_Z b -> byte_of_Z z = b.
Proof.
  intros H. unfold byte_of_Z. rewrite H. unfold byte_to_Z. rewrite N2Z.id.
  rewrite Byte.of_to_N. reflexivity.
Qed.

Lemma to_be_bytes_from_be_bytes (l : list byte) :
  List.length l = 4%nat -> to_be_bytes (from_be_bytes l) = l.
Proof.
  intros H. destruct l as [|b0 [|b1 [|b2 [|b3 [|? ?]]]]]; try discriminate.
  pose proof (byte_to_Z_range b0); pose proof (byte_to_Z_range b1);
  pose proof (byte_to_Z_range b2); pose proof (byte_to_Z_range b3).
  unfold from_be_bytes, to_be_bytes. f_equal; [|f_equal; [|f_equal; [|f_equal]]];
    apply byte_of_Z_to_Z; Z.div_mod_to_equations; lia.
Qed.

(** [Chunk::try_from] returns the [read_exact] error [UnexpectedEof] on a
    buffer shorter than 8 bytes, and on one that holds the declared payload
    but not the 4 checksum bytes after it. *)
Theorem try_from_truncated (value : list byte) :
  let L := Z.to_nat (from_be_bytes (firstn 4 value)) in
  ((List.length value < 8)%nat \/ (L + 8 <= List.length value < L + 12)%nat) ->
  try_from value = Err Truncated.
Proof.
  intros L H. rewrite try_from_cases. cbv zeta. fold L.
  destruct (Nat.ltb_spec (List.length value) 8); [reflexivity|].
  destruct (Nat.ltb_spec (List.length value) (L + 8)); [lia|].
  destruct (Nat.ltb_spec (List.length value) (L + 12)); [reflexivity|lia].
Qed.

Lemma try_from_truncated_witness :
  ((List.length (firstn 53 (as_bytes (new RuSt_type msg))) < 8)%nat \/
   (Z.to_nat (from_be_bytes (firstn 4 (firstn 53 (as_bytes (new RuSt_type msg))))) + 8
      <= List.length (firstn 53 (as_bytes (new RuSt_type msg)))
      < Z.to_nat (from_be_bytes (firstn 4 (firstn 53 (as_bytes (new RuSt_type msg))))) + 12)%nat) /\
  try_from (firstn 53 (as_bytes (new RuSt_type msg))) = Err Truncated.
Proof.
  assert (H : ((List.length (firstn 53 (as_bytes (new RuSt_type msg))) < 8)%nat \/
   (Z.to_nat (from_be_bytes (firstn 4 (firstn 53 (as_bytes (new RuSt_type msg))))) + 8
      <= List.length (firstn 53 (as_bytes (new RuSt_type msg)))
      < Z.to_nat (from_be_bytes (firstn 4 (firstn 53 (as_bytes (new RuSt_type msg))))) + 12)%nat))
    by (right; vm_compute; lia).
  split; [exact H|]. exact (try_from_truncated _ H).
Defined.

Lemma firstn_add {A} (n m : nat) (l : list A) :
  firstn (n + m) l = firstn n l ++ firstn m (skipn n l).
Proof.
  revert l. induction n as [|n IH]; intros l; [reflexivity|].
  destruct l as [|x l]; simpl; [destruct m; reflexivity|]. rewrite IH. reflexivity.
Qed.

Lemma ok_inj {A} (a b : A) : Ok a = Ok b -> b = a.
Proof. intros H. injection H. auto. Qed.

Lemma new_of_record (len : Z) (t : ChunkType) (d : list byte) (cr : Z) :
  len = as_u32 (List.length d) -> cr = checksum (bytes t ++ d) ->
  {| length := len; chunktype := t; data := d; crc := cr |} =
  new (chunktype {| length := len; chunktype := t; data := d; crc := cr |})
      (data {| length := len; chunktype := t; data := d; crc := cr |}).
Proof. intros -> ->. reflexivity. Qed.

(** Every chunk [Chunk::try_from] accepts is the chunk [Chunk::new] builds
    from its type and payload: its length is the payload's byte count and
    its checksum the CRC-32 of type and payload. *)
Theorem try_from_ok_is_new (value : list byte) (c : Chunk) :
  try_from value = Ok c -> c = new (chunktype c) (data c).
Proof.
  rewrite try_from_cases. cbv zeta.
  set (L := Z.to_nat (from_be_bytes (firstn 4 value))).
  destruct (Nat.ltb_spec (List.length value) 8); [discriminate|].
  destruct (Nat.ltb_spec (List.length value) (L + 8)); [discriminate|].
  destruct (Nat.ltb_spec (List.length value) (L + 12)); [discriminate|].
  destruct (Z.eqb_spec (from_be_bytes (firstn 4 (skipn (8 + L) value)))
              (checksum (firstn 4 (skipn 4 value) ++ firstn L (skipn 8 value)))) as [E|];
    [|discriminate].
  intros Hc. apply ok_inj in Hc. subst c. apply new_of_record.
  - rewrite length_firstn, length_skipn, Nat.min_l by lia.
    unfold L, as_u32. rewrite Z2Nat.id by apply from_be_bytes_range.
    symmetry. apply Z.mod_small, from_be_bytes_range.
  - rewrite bytes_array4 by (rewrite length_firstn, length_skipn; lia). exact E.
Qed.

Lemma try_from_ok_is_new_witness :
  try_from (as_bytes (new RuSt_type msg)) = Ok (new RuSt_type msg) /\
  new RuSt_type msg = new (chunktype (new RuSt_type msg)) (data (new RuSt_type msg)).
Proof.
  assert (H : try_from (as_bytes (new RuSt_type msg)) = Ok (new RuSt_type msg))
    by (vm_compute; reflexivity).
  split; [exact H|]. exact (try_from_ok_is_new _ _ H).
Defined.

(** Re-encoding a chunk [Chunk::try_from] accepted gives back exactly the
    [12 + length] bytes it read; bytes after them are ignored. *)
Theorem try_from_ok_reencode (value : list byte) (c : Chunk) :
  try_from value = Ok c ->
  as_bytes c = firstn (12 + Z.to_nat (length c)) value.
Proof.
  rewrite try_from_cases. cbv zeta.
  set (L := Z.to_nat (from_be_bytes (firstn 4 value))).
  destruct (Nat.ltb_spec (List.length value) 8); [discriminate|].
  destruct (Nat.ltb_spec (List.length value) (L + 8)); [discriminate|].
  destruct (Nat.ltb_spec (List.length value) (L + 12)); [discriminate|].
  destruct (_ =? _); [|discriminate].
  intros Hc. apply ok_inj in Hc. subst c. unfold as_bytes. cbv beta iota delta [length chunktype data crc].
  fold L.
  rewrite !to_be_bytes_from_be_bytes, bytes_array4
    by (rewrite ?length_firstn, ?length_skipn; lia).
  symmetry.
  replace (12 + L)%nat with (4 + (4 + (L + 4)))%nat by lia.
  rewrite (firstn_add 4 (4 + (L + 4)) value), (firstn_add 4 (L + 4) (skipn 4 value)),
    (firstn_add L 4 (skipn 4 (skipn 4 value))), !skipn_skipn.
  replace (4 + 4)%nat with 8%nat by reflexivity.
  replace (L + 8)%nat with (8 + L)%nat by lia.
  reflexivity.
Qed.

Lemma try_from_ok_reencode_witness :
  try_from (as_bytes (new RuSt_type msg) ++ [x00; x01]) = Ok (new RuSt_type msg) /\
  as_bytes (new RuSt_type msg) =
  firstn (12 + Z.to_nat (length (new RuSt_type msg))) (as_bytes (new RuSt_type msg) ++ [x00; x01]).
Proof.
  assert (H : try_from (as_bytes (new RuSt_type msg) ++ [x00; x01]) = Ok (new RuSt_type msg))
    by (vm_compute; reflexivity).
  split; [exact H|]. exact (try_from_ok_reencode _ _ H).
Defined.

(** Decoding the encoding of any chunk whose length field is its payload's
    byte count, followed by any bytes: [Chunk::try_from] accepts it, and
    returns it unchanged, exactly when its stored checksum is the CRC-32 of
    type and payload; otherwise it reports both values. *)
Theorem try_from_as_bytes (c : Chunk) (rest : list byte) :
  length c = Z.of_nat (List.length (data c)) ->
  Z.of_nat (List.length (data c)) < 2^32 -> 0 <= crc c < 2^32 ->
  try_from (as_bytes c ++ rest) =
  if crc c =? checksum (bytes (chunktype c) ++ data c) then Ok c
  else Err (ChecksumMismatch (crc c) (checksum (bytes (chunktype c) ++ data c))).
Proof.
  destruct c as [len t d cr]. unfold as_bytes.
  cbv beta iota delta [length chunktype data crc]. intros -> Hd Hc.
  rewrite <- !app_assoc.
  rewrite try_from_record by
    (rewrite ?to_be_bytes_length, ?from_be_bytes_to_be_bytes by lia;
     try reflexivity; apply Nat2Z.id).
  rewrite !from_be_bytes_to_be_bytes by lia. rewrite array4_bytes. reflexivity.
Qed.

Lemma try_from_as_bytes_witness :
  length (new RuSt_type msg) = Z.of_nat (List.length (data (new RuSt_type msg))) /\
  Z.of_nat (List.length (data (new RuSt_type msg))) < 2^32 /\
  0 <= crc (new RuSt_type msg) < 2^32 /\
  try_from (as_bytes (new RuSt_type msg) ++ [x2a]) = Ok (new RuSt_type msg).
Proof.
  assert (H1 : length (new RuSt_type msg) = Z.of_nat (List.length (data (new RuSt_type msg))))
    by (vm_compute; reflexivity).
  assert (H2 : Z.of_nat (List.length (data (new RuSt_type msg))) < 2^32)
    by (vm_compute; reflexivity).
  assert (H3 : 0 <= crc (new RuSt_type msg) < 2^32).
  { assert (E : crc (new RuSt_type msg) = 2882656334) by (vm_compute; reflexivity).
    rewrite E. lia. }
  split; [exact H1|]. split; [exact H2|]. split; [exact H3|].
  rewrite (try_from_as_bytes (new RuSt_type msg) [x2a] H1 H2 H3).
  vm_compute. reflexivity.
Defined.

(** [ChunkType::from_str] in full: the first non-alphabetic byte among the
    first five gives [InvalidFormat] with that byte and the whole string;
    otherwise a string of at most 4 bytes gives the tag of its bytes padded
    with zero bytes, and a longer one panics. *)
Theorem from_str_spec (str : string) :
  from_str str =
  (let s := list_byte_of_string str in
   match first_non_alphabetic s with
   | Some ch => Err (InvalidFormat ch s)
   | None =>
       if Nat.leb (List.length s) 4
       then Ok (array4 (s ++ repeat x00 (4 - List.length s)))
       else Panic
   end).
Proof.
  unfold from_str. cbv zeta. generalize (list_byte_of_string str) as s. intros s.
  unfold first_non_alphabetic.
  destruct s as [|b0 [|b1 [|b2 [|b3 [|b4 rest]]]]]; cbn [firstn find from_str_loop];
    repeat (match goal with |- context [is_ascii_alphabetic ?b] =>
              destruct (is_ascii_alphabetic b) end; cbn [negb bind set_index]);
    reflexivity.
Qed.

Lemma alphabetic_bit5 (b : byte) :
  is_ascii_alphabetic b = true -> (bit5 b =? 0) = is_ascii_uppercase b.
Proof. destruct b; intros H; (reflexivity || discriminate H). Qed.

Lemma alphabetic_ascii (b : byte) : is_ascii_alphabetic b = true -> (byte_to_Z b <? 128) = true.
Proof. destruct b; intros H; (reflexivity || discriminate H). Qed.

Lemma from_str_ok (str : string) (t : ChunkType) :
  from_str str = Ok t ->
  (List.length (list_byte_of_string str) <= 4)%nat /\
  forallb is_ascii_alphabetic (list_byte_of_string str) = true /\
  t = array4 (list_byte_of_string str ++
              repeat x00 (4 - List.length (list_byte_of_string str))).
Proof.
  rewrite from_str_spec. cbv zeta.
  set (s := list_byte_of_string str).
  destruct (first_non_alphabetic s) eqn:F; [discriminate|].
  destruct (Nat.leb_spec (List.length s) 4) as [Hl|]; [|discriminate].
  intros H. apply ok_inj in H. subst t. split; [exact Hl|]. split; [|reflexivity].
  unfold first_non_alphabetic in F. rewrite firstn_all2 in F by lia.
  apply forallb_forall. intros x Hx. apply (find_none _ _ F) in Hx.
  destruct (is_ascii_alphabetic x); [reflexivity|discriminate].
Qed.

(** A tag [ChunkType::from_str] parses from four letters holds those
    letters, and its properties follow their case: critical iff the first
    is upper case, public iff the second is, valid iff the third is, and
    safe to copy iff the fourth is lower case. *)
Theorem from_str_four_letters (str : string) (t : ChunkType) :
  from_str str = Ok t -> List.length (list_byte_of_string str) = 4%nat ->
  bytes t = list_byte_of_string str /\
  is_critical t = is_ascii_uppercase (ct0 t) /\
  is_public t = is_ascii_uppercase (ct1 t) /\
  is_valid t = is_ascii_uppercase (ct2 t) /\
  is_safe_to_copy t = negb (is_ascii_uppercase (ct3 t)).
Proof.
  intros H Hl. apply from_str_ok in H as (_ & Ha & ->).
  revert Ha Hl. generalize (list_byte_of_string str) as s. intros s Ha Hl.
  destruct s as [|b0 [|b1 [|b2 [|b3 [|? ?]]]]]; try discriminate.
  cbn [forallb] in Ha. rewrite !andb_true_iff in Ha. destruct Ha as (H0 & H1 & H2 & H3 & _).
  unfold is_critical, is_public, is_valid, is_reserved_bit_valid, is_safe_to_copy.
  cbn. rewrite !alphabetic_bit5 by assumption. repeat split.
Qed.

Lemma from_str_four_letters_witness :
  from_str "RuSt" = Ok RuSt_type /\ List.length (list_byte_of_string "RuSt") = 4%nat /\
  bytes RuSt_type = list_byte_of_string "RuSt" /\
  is_critical RuSt_type = is_ascii_uppercase (ct0 RuSt_type) /\
  is_public RuSt_type = is_ascii_uppercase (ct1 RuSt_type) /\
  is_valid RuSt_type = is_ascii_uppercase (ct2 RuSt_type) /\
  is_safe_to_copy RuSt_type = negb (is_ascii_uppercase (ct3 RuSt_type)).
Proof.
  assert (H1 : from_str "RuSt" = Ok RuSt_type) by (vm_compute; reflexivity).
  assert (H2 : List.length (list_byte_of_string "RuSt") = 4%nat) by reflexivity.
  split; [exact H1|]. split; [exact H2|]. exact (from_str_four_letters _ _ H1 H2).
Defined.

(** The [Display] of every tag [ChunkType::from_str] accepts succeeds and
    writes the input string followed by one zero byte per missing byte. *)
Theorem from_str_display (str : string) (t : ChunkType) :
  from_str str = Ok t ->
  chunk_type_fmt t =
  Some (list_byte_of_string str ++ repeat x00 (4 - List.length (list_byte_of_string str))).
Proof.
  intros H. apply from_str_ok in H as (Hl & Ha & ->).
  revert Ha Hl. generalize (list_byte_of_string str) as s. intros s Ha Hl.
  unfold chunk_type_fmt, from_utf8.
  rewrite bytes_array4 by (rewrite length_app, repeat_length; lia).
  rewrite utf8_ascii; [reflexivity|].
  rewrite forallb_app. apply andb_true_intro. split.
  - apply forallb_forall. intros x Hx. apply alphabetic_ascii.
    rewrite forallb_forall in Ha. auto.
  - apply forallb_forall. intros x Hx. apply repeat_spec in Hx. subst x. reflexivity.
Qed.

Lemma from_str_display_witness :
  from_str "Ab" = Ok (mkChunkType "A"%byte "b"%byte x00 x00) /\
  chunk_type_fmt (mkChunkType "A"%byte "b"%byte x00 x00) = Some ["A"%byte; "b"%byte; x00; x00].
Proof.
  assert (H : from_str "Ab" = Ok (mkChunkType "A"%byte "b"%byte x00 x00))
    by (vm_compute; reflexivity).
  split; [exact H|]. exact (from_str_display _ _ H).
Defined.

(** The CLI's [encode] then [decode] path on one chunk: the chunk built from
    a text message (any valid UTF-8 of fewer than [2^32] bytes) by
    [Chunk::new], encoded by [as_bytes] and decoded by [Chunk::try_from],
    gives the message back through [data_as_string]. *)
Theorem message_roundtrip (t : ChunkType) (m : list byte) :
  run_utf8_validation m = true -> Z.of_nat (List.length m) < 2^32 ->
  exists c, try_from (as_bytes (new t m)) = Ok c /\ data_as_string c = Some m.
Proof.
  intros Hu Hd. exists (new t m). split.
  - rewrite as_bytes_new, <- (app_nil_r (to_be_bytes (checksum _))).
    rewrite try_from_record by
      (rewrite ?to_be_bytes_length, ?from_be_bytes_to_be_bytes by apply as_u32_range;
       try reflexivity; rewrite as_u32_small by exact Hd; apply Nat2Z.id).
    rewrite from_be_bytes_to_be_bytes by apply checksum_range.
    rewrite Z.eqb_refl, from_be_bytes_to_be_bytes by apply as_u32_range.
    rewrite array4_bytes. reflexivity.
  - unfold data_as_string, from_utf8. change (data (new t m)) with m. rewrite Hu. reflexivity.
Qed.

Lemma message_roundtrip_witness :
  run_utf8_validation msg = true /\ Z.of_nat (List.length msg) < 2^32 /\
  exists c, try_from (as_bytes (new RuSt_type msg)) = Ok c /\ data_as_string c = Some msg.
Proof.
  assert (H1 : run_utf8_validation msg = true) by (vm_compute; reflexivity).
  assert (H2 : Z.of_nat (List.length msg) < 2^32) by (vm_compute; reflexivity).
  split; [exact H1|]. split; [exact H2|]. exact (message_roundtrip _ _ H1 H2).
Defined.



(** [Chunk::try_from] only ever panics, returns [UnexpectedEof], returns a
    checksum mismatch whose two values differ, or succeeds. *)
Theorem try_from_outcomes (value : list byte) :
  (exists c, try_from value = Ok c) \/ try_from value = Err Truncated \/
  try_from value = Panic \/
  (exists stored computed,
     try_from value = Err (ChecksumMismatch stored computed) /\ stored <> computed).
Proof.
  rewrite try_from_cases. cbv zeta.
  destruct (Nat.ltb _ 8); [right; left; reflexivity|].
  destruct (Nat.ltb _ (_ + 8)); [right; right; left; reflexivity|].
  destruct (Nat.ltb _ (_ + 12)); [right; left; reflexivity|].
  match goal with |- context [if ?a =? ?b then _ else _] =>
    destruct (Z.eqb_spec a b) end.
  - left. eexists. reflexivity.
  - right; right; right. do 2 eexists. split; [reflexivity|assumption].
Qed.
